(** * Proliphix network thermostat client: model and properties

    A shallow embedding of [proliphix/proliphix.py]: the OID table, the two
    table helpers, and the [PDP] device proxy with its cache, its refresh
    ([update]), its field write ([_set]) and its property accessors.

    Conventions of the embedding:
    - a Python [str] is a [string]; a character is a code point in 0..255;
    - the module constant [OIDS] and the keyword arguments of [_set] are
      insertion-ordered dictionaries, kept as association lists with unique
      keys; the cache [_data], whose order is never observed, is a [gmap];
    - a Python [float] is a binary64 [float];
    - a call either returns or raises: [result];
    - [requests.post] is the transport collaborator, a function from the
      request to the text of the reply (or an exception). *)

From Stdlib Require Import ZArith Floats Ascii String List Bool Lia.
From stdpp Require Import gmap strings list pretty.

#[local] Open Scope Z_scope.
#[local] Set Warnings "-inexact-float".

(** ** The part of Python the program relies on *)

Module Py.

(** Exceptions the modelled code can raise. [RequestException] stands for
    whatever the transport raises. *)
Inductive exn : Type :=
| KeyError (key : string)
| ValueError
| OverflowError
| RequestException.

Inductive result (A : Type) : Type :=
| Ok (a : A)
| Raise (e : exn).
Arguments Ok {A} a.
Arguments Raise {A} e.

Definition bind {A B : Type} (r : result A) (k : A → result B) : result B :=
  match r with
  | Ok a => k a
  | Raise e => Raise e
  end.

(** The objects found in the cache and in keyword arguments: the strings
    of a reply and the integer written by the setter. *)
Inductive value : Type :=
| VStr (s : string)
| VInt (n : Z).

Definition is_str (v : value) : bool :=
  match v with VStr _ => true | VInt _ => false end.

(** [v == s] for a string [s]: an [int] never equals a [str]. *)
Definition eq_str (v : value) (s : string) : bool :=
  match v with
  | VStr t => bool_decide (t = s)
  | VInt _ => false
  end.

(** Truth value of a string: the empty string is falsy. *)
Definition truthy (s : string) : bool :=
  match s with
  | EmptyString => false
  | String _ _ => true
  end.

(** *** Strings *)

(** [s.split(sep)] for a one-character separator. *)
Fixpoint split (sep : ascii) (s : string) : list string :=
  match s with
  | EmptyString => [EmptyString]
  | String c rest =>
      if Ascii.eqb c sep then EmptyString :: split sep rest
      else match split sep rest with
           | [] => [String c EmptyString]
           | w :: ws => String c w :: ws
           end
  end.

(** [sep.join(l)] *)
Fixpoint join (sep : string) (l : list string) : string :=
  match l with
  | [] => ""
  | [w] => w
  | w :: ws => w +:+ sep +:+ join sep ws
  end.

(** [s[n:]] *)
Fixpoint slice_from (n : nat) (s : string) : string :=
  match n, s with
  | O, _ => s
  | S n', String _ rest => slice_from n' rest
  | S _, EmptyString => ""
  end.

(** [c in s] for a character [c]. *)
Fixpoint contains (c : ascii) (s : string) : bool :=
  match s with
  | EmptyString => false
  | String d rest => Ascii.eqb d c || contains c rest
  end.

(** [s.replace(a, b)] for characters [a] and [b]. *)
Fixpoint replace (a b : ascii) (s : string) : string :=
  match s with
  | EmptyString => ""
  | String c rest => String (if Ascii.eqb c a then b else c) (replace a b rest)
  end.

(** [str(v)] *)
Definition str (v : value) : string :=
  match v with
  | VStr s => s
  | VInt n => pretty n
  end.

(** *** Dictionaries that keep insertion order *)

Section Dict.
Context {V : Type}.

(** [d.get(k)] *)
Fixpoint dict_get (d : list (string * V)) (k : string) : option V :=
  match d with
  | [] => None
  | (k', v) :: rest => if bool_decide (k' = k) then Some v else dict_get rest k
  end.

(** [d[k] = v]: an existing key keeps its place, a new one goes last. *)
Fixpoint dict_set (k : string) (v : V) (d : list (string * V)) : list (string * V) :=
  match d with
  | [] => [(k, v)]
  | (k', v') :: rest =>
      if bool_decide (k' = k) then (k, v) :: rest
      else (k', v') :: dict_set k v rest
  end.
End Dict.

(** *** [urllib.parse] *)

Definition in_range (lo hi : ascii) (c : ascii) : bool :=
  (N_of_ascii lo <=? N_of_ascii c)%N && (N_of_ascii c <=? N_of_ascii hi)%N.

Definition is_digit (c : ascii) : bool := in_range "0" "9" c.

(** The characters [quote] never escapes. *)
Definition always_safe (c : ascii) : bool :=
  in_range "A" "Z" c || in_range "a" "z" c || is_digit c
  || contains c "_.-~".

Definition hex_digit (n : N) : ascii :=
  match String.get (N.to_nat n) "0123456789ABCDEF" with
  | Some c => c
  | None => "0"%char
  end.

(** ['%{:02X}'.format(b)] *)
Definition percent (b : N) : string :=
  String "%" (String (hex_digit (b / 16)) (String (hex_digit (b mod 16)) "")).

(** The UTF-8 bytes of a code point below 256. *)
Definition utf8 (c : ascii) : list N :=
  let n := N_of_ascii c in
  if (n <? 128)%N then [n] else [192 + n / 64; 128 + n mod 64]%N.

(** [quote(s, safe)] *)
Fixpoint quote (safe : string) (s : string) : string :=
  match s with
  | EmptyString => ""
  | String c rest =>
      (if always_safe c || contains c safe then String c ""
       else String.concat "" (percent <$> utf8 c))
      +:+ quote safe rest
  end.

(** [quote_plus(s)], with [safe=''] as [urlencode] calls it. *)
Definition quote_plus (s : string) : string :=
  if contains " " s then replace " " "+" (quote " " s) else quote "" s.

(** [urlencode(d)] for a dictionary with string keys. *)
Definition urlencode (d : list (string * value)) : string :=
  join "&" ((λ kv, quote_plus kv.1 +:+ "=" +:+ quote_plus (str kv.2)) <$> d).

(** *** Numbers *)

(** The argument of the setter: an [int] or a [float]. *)
Inductive number : Type :=
| Int (n : Z)
| Float (f : float).

(** [x * 10] *)
Definition times10 (x : number) : number :=
  match x with
  | Int n => Int (n * 10)
  | Float f => Float (f * 10)
  end.

(** [int(f)] for a float: the integral part, nothing for an infinity or
    a NaN. A finite float is [(-1)^s * m * 2^e]. *)
Definition trunc (f : float) : result Z :=
  match Prim2SF f with
  | S754_zero _ => Ok 0
  | S754_finite s m e =>
      let a := if (0 <=? e) then Z.pos m * 2 ^ e else Z.pos m / 2 ^ (- e) in
      Ok (if s then - a else a)
  | S754_infinity _ => Raise OverflowError
  | S754_nan => Raise ValueError
  end.

(** [int(x)] for a number. *)
Definition int_of_number (x : number) : result Z :=
  match x with
  | Int n => Ok n
  | Float f => trunc f
  end.

(** The float nearest to [(-1)^neg * m * 10^e] (ties to even) for
    [0 <= m], as the string conversion computes it; too large a value
    gives an infinity. *)
Definition decimal_to_float (neg : bool) (m e : Z) : float :=
  SF2Prim
    match m with
    | Z.pos p =>
        if (0 <=? e) then
          let n := Z.pos p * 10 ^ e in
          binary_normalize prec emax (if neg then - n else n) 0 neg
        else
          let '(q, e', l) := SFdiv_core_binary prec emax (Z.pos p) 0 (10 ^ (- e)) 0 in
          binary_round_aux prec emax neg q e' l
    | _ => S754_zero neg
    end.

(** [float(n)] for an [int]: the nearest float, or [OverflowError]. *)
Definition float_of_int (n : Z) : result float :=
  match binary_normalize prec emax n 0 false with
  | S754_infinity _ => Raise OverflowError
  | sf => Ok (SF2Prim sf)
  end.

(** White space as the numeric conversions see it, among the code points
    below 256: tab to carriage return, the space, and the two Unicode
    spaces U+0085 and U+00A0. *)
Definition is_space (c : ascii) : bool :=
  let n := N_of_ascii c in
  ((9 <=? n) && (n <=? 13) || (n =? 32) || (n =? 133) || (n =? 160))%N.

Fixpoint lstrip (s : string) : string :=
  match s with
  | EmptyString => ""
  | String c rest => if is_space c then lstrip rest else s
  end.

(** [s.strip()] *)
Definition strip (s : string) : string :=
  String.rev (lstrip (String.rev (lstrip s))).

(** An underscore is accepted only between two digits; [prev] is the
    character before [s]. *)
Fixpoint underscores_ok (prev : ascii) (s : string) : bool :=
  match s with
  | EmptyString => negb (Ascii.eqb prev "_")
  | String c rest =>
      (if Ascii.eqb c "_" then is_digit prev
       else negb (Ascii.eqb prev "_") || is_digit c)
      && underscores_ok c rest
  end.

Fixpoint remove (a : ascii) (s : string) : string :=
  match s with
  | EmptyString => ""
  | String c rest => if Ascii.eqb c a then remove a rest else String c (remove a rest)
  end.

(** An optional sign: whether it is a minus, and what follows. *)
Definition take_sign (s : string) : bool * string :=
  match s with
  | String "-" rest => (true, rest)
  | String "+" rest => (false, rest)
  | _ => (false, s)
  end.

Definition digit_value (c : ascii) : Z := Z.of_N (N_of_ascii c) - 48.

(** The leading digits of [s] read after [acc]: the number, how many
    digits were read, and what follows them. *)
Fixpoint take_digits (acc : Z) (count : nat) (s : string) : Z * nat * string :=
  match s with
  | EmptyString => (acc, count, s)
  | String c rest =>
      if is_digit c then take_digits (10 * acc + digit_value c) (S count) rest
      else (acc, count, s)
  end.

(** [int(s)] for a string, in base 10. *)
Definition int_of_str (s : string) : result Z :=
  let t := strip s in
  if underscores_ok "000" t then
    let '(neg, body) := take_sign (remove "_" t) in
    match take_digits 0 0 body with
    | (n, S _, EmptyString) => Ok (if neg then - n else n)
    | _ => Raise ValueError
    end
  else Raise ValueError.

(** [int(v)] for a cached object. *)
Definition int_ (v : value) : result Z :=
  match v with
  | VStr s => int_of_str s
  | VInt n => Ok n
  end.

(** [s.lower()] on the letters A to Z. *)
Fixpoint lower (s : string) : string :=
  match s with
  | EmptyString => ""
  | String c rest =>
      String (if in_range "A" "Z" c then ascii_of_N (N_of_ascii c + 32) else c)
             (lower rest)
  end.

(** A decimal literal [digits [. digits] [e [sign] digits]] with a digit
    before the exponent: its digits as an integer and its power of ten. *)
Definition parse_decimal (body : string) : option (Z * Z) :=
  let '(m1, n1, r1) := take_digits 0 0 body in
  let '(m, n2, r2) :=
    match r1 with
    | String "." r => take_digits m1 0 r
    | _ => (m1, O, r1)
    end in
  match (n1 + n2)%nat with
  | O => None
  | S _ =>
      match r2 with
      | EmptyString => Some (m, - Z.of_nat n2)
      | String c r =>
          if Ascii.eqb c "e" || Ascii.eqb c "E" then
            let '(eneg, r') := take_sign r in
            match take_digits 0 0 r' with
            | (x, S _, EmptyString) =>
                Some (m, (if eneg then - x else x) - Z.of_nat n2)
            | _ => None
            end
          else None
      end
  end.

(** [float(s)] for a string. *)
Definition float_of_str (s : string) : result float :=
  let t := strip s in
  if underscores_ok "000" t then
    let '(neg, body) := take_sign (remove "_" t) in
    let name := lower body in
    if bool_decide (name = "inf") || bool_decide (name = "infinity") then
      Ok (if neg then neg_infinity else infinity)
    else if bool_decide (name = "nan") then Ok nan
    else match parse_decimal body with
         | Some (m, e) => Ok (decimal_to_float neg m e)
         | None => Raise ValueError
         end
  else Raise ValueError.

(** [float(v)] for a cached object. *)
Definition float_ (v : value) : result float :=
  match v with
  | VStr s => float_of_str s
  | VInt n => float_of_int n
  end.

End Py.

Import Py.

#[global] Instance result_ret : MRet result := λ A, Ok.
#[global] Instance result_bind : MBind result := λ A B k r, bind r k.

(** ** The OID table and its helpers *)

(** The subset of OIDs modelled, in the order of the source. *)
Definition OIDS : list (string * string) :=
  [ ("1.2", "DevName");
    ("4.1.13", "AverageTemp");
    ("4.1.4", "FanState");
    ("4.1.5", "SetbackHeat");
    ("4.1.6", "SetbackCool");
    ("4.1.2", "HvacState");
    ("4.1.11", "CurrentClass");
    ("4.5.1", "Heat1Usage");
    ("4.5.3", "Cool1Usage");
    ("4.5.5", "FanUsage");
    ("4.5.6", "LastUsageReset") ].

(** The loop of [_get_oid] over [items]: the first identifier whose name is
    [name]. *)
Fixpoint get_oid_in (items : list (string * string)) (name : string) : option string :=
  match items with
  | [] => None
  | (oid, value) :: rest =>
      if bool_decide (value = name) then Some oid else get_oid_in rest name
  end.

(** Get OID by name/value. *)
Definition _get_oid (name : string) : option string := get_oid_in OIDS name.

(** Build a query string for all the OIDS we have. *)
Definition _all_oids : string :=
  join "&" ((λ x, "OID" +:+ x +:+ "=") <$> OIDS.*1).

(** ** The device proxy *)

Record PDP : Type := {
  _host : string;
  _user : string;
  _passwd : string;
  _data : gmap string value
}.

Definition __init__ (host user passwd : string) : PDP :=
  {| _host := host; _user := user; _passwd := passwd; _data := ∅ |}.

(** [self._data[key] = v] *)
Definition setitem (key : string) (v : value) (self : PDP) : PDP :=
  {| _host := _host self; _user := _user self; _passwd := _passwd self;
     _data := <[key := v]> (_data self) |}.

(** [self._data[key]] *)
Definition getitem (self : PDP) (key : string) : result value :=
  match _data self !! key with
  | Some v => Ok v
  | None => Raise (KeyError key)
  end.

(** What [requests.post(url, auth=..., data=...)] is called with. *)
Record request : Type := {
  url : string;
  auth : string * string;
  data : string
}.

(** [requests.post]: the text of the reply, or the exception raised. *)
Definition transport : Type := request → result string.

(** *** Refresh *)

Definition update_request (self : PDP) : request :=
  {| url := "http://" +:+ _host self +:+ "/get";
     auth := (_user self, _passwd self);
     data := _all_oids |}.

(** The body of the loop of [update] for one line: the proxy after it, and
    whether it raised. The unpacking [oid, value = line.split('=')] raises
    [ValueError] unless the split has exactly two parts. *)
Definition update_line (line : string) (self : PDP) : PDP * result () :=
  if truthy line then
    match split "=" line with
    | [oid; value] =>
        match dict_get OIDS (slice_from 3 oid) with
        | Some const =>
            if truthy const then (setitem const (VStr value) self, Ok ())
            else (self, Ok ())
        | None => (self, Ok ())
        end
    | _ => (self, Raise ValueError)
    end
  else (self, Ok ()).

(** The loop of [update]: an exception leaves the loop, and the cache as
    the lines before it made it. *)
Fixpoint update_lines (lines : list string) (self : PDP) : PDP * result () :=
  match lines with
  | [] => (self, Ok ())
  | line :: rest =>
      match update_line line self with
      | (self', Ok _) => update_lines rest self'
      | (self', Raise e) => (self', Raise e)
      end
  end.

(** The line that logs the cache after the loop has no effect on the proxy
    and is left out. *)
Definition update (post : transport) (self : PDP) : PDP * result () :=
  match post (update_request self) with
  | Ok text => update_lines (split "&" text) self
  | Raise e => (self, Raise e)
  end.

(** What the contract of refresh says a pair [key=value] does: under the
    name of the identifier [key[3:]], when the table has it, the cache
    gets the string [value]. *)
Definition store_pair (kv : string * string) (self : PDP) : PDP :=
  match dict_get OIDS (slice_from 3 kv.1) with
  | Some const => setitem const (VStr kv.2) self
  | None => self
  end.

(** *** Field write *)

(** The dictionary [data] that the loop of [_set] builds. *)
Definition _set_data (kwargs : list (string * value)) : list (string * value) :=
  foldl
    (λ data kv,
       match _get_oid kv.1 with
       | Some oid => if truthy oid then dict_set ("OID" +:+ oid) kv.2 data else data
       | None => data
       end)
    [] kwargs.

Definition _set_request (self : PDP) (kwargs : list (string * value)) : request :=
  {| url := "http://" +:+ _host self +:+ "/pdp";
     auth := (_user self, _passwd self);
     data := urlencode (_set_data kwargs) +:+ "&submit=Submit" |}.

(** The reply is not looked at. *)
Definition _set (post : transport) (self : PDP) (kwargs : list (string * value)) : result () :=
  _ ← post (_set_request self kwargs); Ok ().

(** The pairs of [kwargs] whose name the table resolves, each with the
    identifier in place of the name, in the order of [kwargs]. *)
Definition resolved (kwargs : list (string * value)) : list (string * value) :=
  omap (λ kv, oid ← _get_oid kv.1; Some (oid, kv.2)) kwargs.

(** The token [OID<id>=<value>] of a form-encoded body. *)
Definition token (ov : string * value) : string :=
  "OID" +:+ ov.1 +:+ "=" +:+ quote_plus (str ov.2).


(** *** Properties *)

Definition cur_temp (self : PDP) : result float :=
  v ← getitem self "AverageTemp"; f ← float_ v; Ok (f / 10)%float.

Definition setback_heat (self : PDP) : result float :=
  v ← getitem self "SetbackHeat"; f ← float_ v; Ok (f / 10)%float.

(** The setter of [setback_heat]: the proxy after it, and whether it
    raised. *)
Definition setback_heat_setter (post : transport) (val : number) (self : PDP)
  : PDP * result () :=
  match int_of_number (times10 val) with
  | Ok n =>
      let self' := setitem "SetbackHeat" (VInt n) self in
      (self', v ← getitem self' "SetbackHeat"; _set post self' [("SetbackHeat", v)])
  | Raise e => (self, Raise e)
  end.

Definition hvac_state (self : PDP) : result Z :=
  v ← getitem self "HvacState"; int_ v.

Definition name (self : PDP) : result value :=
  getitem self "DevName".

Definition fan_state (self : PDP) : result string :=
  v ← getitem self "FanState";
  if eq_str v "2" then Ok "On" else Ok "Off".

(** ** Notions used to state properties *)


(** Strings whose characters all pass the test [P]. *)
Fixpoint all_chars (P : ascii → bool) (s : string) : bool :=
  match s with
  | EmptyString => true
  | String c rest => P c && all_chars P rest
  end.

(** The characters of a form-encoded name or value: the safe ones, the
    percent sign of an escape and the plus sign of a space. *)
Definition form_char (c : ascii) : bool :=
  always_safe c || Ascii.eqb c "%" || Ascii.eqb c "+".

(** The proxies a program can come to hold: one built by [__init__], then
    refreshed and set any number of times, whatever the transport answers
    and whether the calls raise or not. *)
Inductive reachable (host user passwd : string) : PDP → Prop :=
| reachable_init :
    reachable host user passwd (__init__ host user passwd)
| reachable_update (post : transport) (self : PDP) :
    reachable host user passwd self →
    reachable host user passwd (update post self).1
| reachable_setter (post : transport) (val : number) (self : PDP) :
    reachable host user passwd self →
    reachable host user passwd (setback_heat_setter post val self).1.

(** ** Facts about the string operations *)

Section Strings.
Variable sep : ascii.


(** A string without the separator is its own single part. *)
Lemma split_without_sep (s : string) :
  contains sep s = false → split sep s = [s].
Proof.
  induction s as [|c s IH]; simpl; [done|].
  intros [Hc Hs]%orb_false_iff. rewrite Hc, (IH Hs). done.
Qed.

(** The first separator ends the first part. *)
Lemma split_append (a b : string) :
  contains sep a = false →
  split sep (a +:+ String sep b) = a :: split sep b.
Proof.
  induction a as [|c a IH]; simpl.
  - intros _. by rewrite Ascii.eqb_refl.
  - intros [Hc Ha]%orb_false_iff. rewrite Hc, (IH Ha). done.
Qed.

(** Splitting undoes joining when no part holds the separator. *)
Lemma split_join (l : list string) :
  l ≠ [] →
  Forall (λ w, contains sep w = false) l →
  split sep (join (String sep "") l) = l.
Proof.
  induction l as [|w l IH]; [done|].
  intros _ Hall. apply Forall_cons in Hall as [Hw Hl].
  destruct l as [|w' l]; simpl.
  - by apply split_without_sep.
  - change (split sep (w +:+ String sep (join (String sep "") (w' :: l)))
            = w :: w' :: l).
    rewrite split_append by done. f_equal. by apply IH.
Qed.

End Strings.

(** A line with a single [=] splits into its two sides. *)
Lemma split_pair (key value : string) :
  contains "=" key = false → contains "=" value = false →
  split "=" (key +:+ "=" +:+ value) = [key; value].
Proof.
  intros Hk Hv.
  change (split "=" (key +:+ String "=" value) = [key; value]).
  by rewrite split_append, split_without_sep.
Qed.

Lemma truthy_append (a b : string) : truthy b = true → truthy (a +:+ b) = true.
Proof. by destruct a, b. Qed.

(** ** Facts about the entries of the table *)

(** Every name of the table is a non-empty string, so [if const:] only
    tests that the identifier was found. *)
Lemma OIDS_names_truthy (oid const : string) :
  dict_get OIDS oid = Some const → truthy const = true.
Proof.
  unfold OIDS; simpl.
  repeat (case_bool_decide; [by intros [= <-]|]). done.
Qed.

Lemma OIDS_oids_truthy (const oid : string) :
  _get_oid const = Some oid → truthy oid = true.
Proof.
  unfold _get_oid, OIDS; simpl.
  repeat (case_bool_decide; [by intros [= <-]|]). done.
Qed.

(** ** Tables with unique identifiers and unique names *)

Section Table.
Variable table : list (string * string).

(** With unique identifiers, an entry is what its identifier looks up. *)
Lemma dict_get_of_entry (oid const : string) :
  NoDup table.*1 → (oid, const) ∈ table → dict_get table oid = Some const.
Proof.
  induction table as [|[o c] rest IH]; [by intros _ ?%elem_of_nil|].
  intros [Hfresh Hrest]%NoDup_cons [[= -> ->]|Hin]%elem_of_cons; simpl.
  - by rewrite bool_decide_eq_true_2.
  - rewrite bool_decide_eq_false_2; [by apply IH|].
    intros ->. apply Hfresh. apply list_elem_of_fmap. by exists (oid, const).
Qed.

(** With unique names, an entry is what the search by name finds. *)
Lemma get_oid_in_of_entry (oid const : string) :
  NoDup table.*2 → (oid, const) ∈ table → get_oid_in table const = Some oid.
Proof.
  induction table as [|[o c] rest IH]; [by intros _ ?%elem_of_nil|].
  intros [Hfresh Hrest]%NoDup_cons [[= -> ->]|Hin]%elem_of_cons; simpl.
  - by rewrite bool_decide_eq_true_2.
  - rewrite bool_decide_eq_false_2; [by apply IH|].
    intros ->. apply Hfresh. apply list_elem_of_fmap. by exists (oid, const).
Qed.

(** Both searches only return entries of the table. *)
Lemma get_oid_in_entry (oid const : string) :
  get_oid_in table const = Some oid → (oid, const) ∈ table.
Proof.
  induction table as [|[o c] rest IH]; simpl; [done|].
  case_bool_decide as Hc.
  - intros [= ->]. subst c. by left.
  - intros Hrest. right. by apply IH.
Qed.

Lemma dict_get_entry (oid const : string) :
  dict_get table oid = Some const → (oid, const) ∈ table.
Proof.
  induction table as [|[o c] rest IH]; simpl; [done|].
  case_bool_decide as Ho.
  - intros [= ->]. subst o. by left.
  - intros Hrest. right. by apply IH.
Qed.

Lemma get_oid_in_unknown (const : string) :
  const ∉ table.*2 → get_oid_in table const = None.
Proof.
  induction table as [|[o c] rest IH]; simpl; [done|].
  intros [Hne Hnot]%not_elem_of_cons.
  rewrite bool_decide_eq_false_2 by done. by apply IH.
Qed.
End Table.

Lemma OIDS_oids_unique : NoDup OIDS.*1.
Proof. by apply (bool_decide_unpack _). Qed.

Lemma OIDS_names_unique : NoDup OIDS.*2.
Proof. by apply (bool_decide_unpack _). Qed.

(** C7: for a name of the table, [_get_oid] gives the identifier of its
    entry, and the table maps that identifier back to the name; the
    other way round too, so names and identifiers are in bijection; for a
    name that is not in the table [_get_oid] returns [None]. *)
Theorem get_oid_inverts_table :
  (∀ oid const, (oid, const) ∈ OIDS →
     _get_oid const = Some oid ∧ dict_get OIDS oid = Some const)
  ∧ (∀ const, const ∈ OIDS.*2 →
     ∃ oid, _get_oid const = Some oid ∧ dict_get OIDS oid = Some const)
  ∧ (∀ oid const, dict_get OIDS oid = Some const ↔ _get_oid const = Some oid)
  ∧ (∀ const, const ∉ OIDS.*2 → _get_oid const = None).
Proof.
  pose proof OIDS_oids_unique as Ho. pose proof OIDS_names_unique as Hn.
  assert (Hentry : ∀ oid const, (oid, const) ∈ OIDS →
            _get_oid const = Some oid ∧ dict_get OIDS oid = Some const).
  { intros oid const Hin. split.
    - by apply get_oid_in_of_entry.
    - by apply dict_get_of_entry. }
  split_and!.
  - exact Hentry.
  - intros const ([oid c] & -> & Hin)%list_elem_of_fmap. exists oid. by apply Hentry.
  - intros oid const. split.
    + intros Hget. by apply Hentry, dict_get_entry.
    + intros Hget. by apply Hentry, get_oid_in_entry.
  - intros const. apply get_oid_in_unknown.
Qed.

Lemma get_oid_inverts_table_witness :
  _get_oid "SetbackHeat" = Some "4.1.5"
  ∧ dict_get OIDS "4.1.5" = Some "SetbackHeat"
  ∧ _get_oid "Humidity" = None.
Proof.
  destruct get_oid_inverts_table as (Hentry & _ & _ & Hnone).
  destruct (Hentry "4.1.5" "SetbackHeat") as [Hoid Hname].
  { apply list_elem_of_In. vm_compute. tauto. }
  split_and!; [exact Hoid|exact Hname|].
  apply Hnone. rewrite list_elem_of_In. vm_compute.
  intros H. repeat (destruct H as [H|H]; [discriminate H|]). exact H.
Defined.

(** ** Facts about the refresh loop *)

#[local] Arguments dict_get : simpl never.
#[local] Arguments slice_from : simpl never.
#[local] Arguments split : simpl never.

(** What one line can do: nothing, raise, or store one string under the
    name of its identifier. *)
Lemma update_line_cases (line : string) (self : PDP) :
  update_line line self = (self, Ok ())
  ∨ update_line line self = (self, Raise ValueError)
  ∨ ∃ oid value const,
      split "=" line = [oid; value]
      ∧ dict_get OIDS (slice_from 3 oid) = Some const
      ∧ update_line line self = (setitem const (VStr value) self, Ok ()).
Proof.
  unfold update_line.
  destruct (truthy line); [|by left].
  destruct (split "=" line) as [|oid [|value [|? ?]]]; [by right; left ..| |by right; left].
  destruct (dict_get OIDS (slice_from 3 oid)) as [const|] eqn:Hget; [|by left].
  rewrite (OIDS_names_truthy _ _ Hget).
  right; right. by exists oid, value, const.
Qed.

(** The loop over two runs of lines: the second run is reached only when the
    first did not raise. *)
Lemma update_lines_app (before after : list string) (self : PDP) :
  update_lines (before ++ after) self =
    match update_lines before self with
    | (self', Ok _) => update_lines after self'
    | (self', Raise e) => (self', Raise e)
    end.
Proof.
  revert self. induction before as [|line before IH]; intros self; simpl; [done|].
  destruct (update_line line self) as [self' [[]|e]]; [apply IH|done].
Qed.

(** A property of cache entries that every line preserves is preserved by
    the loop, whether it raises or not. *)
Lemma update_lines_invariant (P : gmap string value → Prop) (lines : list string) :
  (∀ line self, line ∈ lines → P (_data self) → P (_data (update_line line self).1)) →
  ∀ self, P (_data self) → P (_data (update_lines lines self).1).
Proof.
  induction lines as [|line rest IH]; intros Hstep self HP; simpl; [done|].
  pose proof (Hstep line self ltac:(by left) HP) as HP'.
  destruct (update_line line self) as [self' [[]|e]]; [|done].
  apply IH; [|done]. intros l s Hl. apply Hstep. by right.
Qed.

Lemma update_invariant (P : gmap string value → Prop) (post : transport) (self : PDP) :
  (∀ text line self', post (update_request self) = Ok text →
     line ∈ split "&" text →
     P (_data self') → P (_data (update_line line self').1)) →
  P (_data self) → P (_data (update post self).1).
Proof.
  intros Hstep HP. unfold update.
  destruct (post (update_request self)) as [text|e] eqn:Hpost; [|done].
  apply update_lines_invariant; [|done].
  intros line self' Hin. by apply (Hstep text).
Qed.

(** ** Refresh: lines without a separator *)

(** C1, as amended: a line of the reply without [=] is skipped only when it
    is empty, and then the loop goes on with the cache as it was; a
    non-empty one makes [update] raise [ValueError] there: the lines after
    it are not processed and the cache keeps what the lines before it
    stored. *)
Theorem update_line_without_equals
    (post : transport) (self : PDP) (text : string)
    (before after : list string) (line : string) :
  post (update_request self) = Ok text →
  split "&" text = before ++ line :: after →
  contains "=" line = false →
  update post self =
    match update_lines before self with
    | (self', Ok _) =>
        if truthy line then (self', Raise ValueError)
        else update_lines after self'
    | (self', Raise e) => (self', Raise e)
    end.
Proof.
  intros Hpost Hsplit Hline. unfold update.
  rewrite Hpost, Hsplit, update_lines_app.
  destruct (update_lines before self) as [self' [[]|e]]; [|done].
  simpl. unfold update_line.
  destruct (truthy line); [|done].
  by rewrite (split_without_sep _ _ Hline).
Qed.

Lemma update_line_without_equals_witness :
  update (λ _, Ok "OID1.2=Kitchen&&junk&OID4.1.13=712") (__init__ "nt10e" "admin" "pw")
  = ({| _host := "nt10e"; _user := "admin"; _passwd := "pw";
        _data := {[ "DevName" := VStr "Kitchen" ]} |},
     Raise ValueError).
Proof.
  rewrite (update_line_without_equals _ _ "OID1.2=Kitchen&&junk&OID4.1.13=712"
             ["OID1.2=Kitchen"; ""] ["OID4.1.13=712"] "junk");
    reflexivity.
Defined.

(** C1, as stated, fails: the reply [junk&OID1.2=Kitchen] has a first line
    without [=]; [update] raises on it and never stores the device name of
    the second line. *)
Lemma update_raises_on_line_without_equals :
  let post : transport := λ _, Ok "junk&OID1.2=Kitchen" in
  let self := __init__ "nt10e" "admin" "pw" in
  split "&" "junk&OID1.2=Kitchen" = ["junk"; "OID1.2=Kitchen"]
  ∧ contains "=" "junk" = false
  ∧ (update post self).2 = Raise ValueError
  ∧ _data (update post self).1 !! "DevName" = None.
Proof. by vm_compute. Qed.

(** ** Refresh: what stays in the cache *)

(** C10: [update] removes no key, whatever the reply and whether it raises
    or not; and a field for whose identifier the reply has no pair keeps
    the value it had. *)
Theorem update_keeps_cached_fields
    (post : transport) (self : PDP) (k : string) (v : value) :
  _data self !! k = Some v →
  is_Some (_data (update post self).1 !! k)
  ∧ ((∀ text line oid value,
        post (update_request self) = Ok text →
        line ∈ split "&" text →
        split "=" line = [oid; value] →
        dict_get OIDS (slice_from 3 oid) ≠ Some k) →
     _data (update post self).1 !! k = Some v).
Proof.
  intros Hk. split.
  - apply (update_invariant (λ m, is_Some (m !! k))); [|by rewrite Hk].
    intros text line self' _ _ Hsome.
    destruct (update_line_cases line self') as [-> | [-> | (oid & value & const & _ & _ & ->)]];
      [done..|].
    simpl. destruct (decide (const = k)) as [->|Hne].
    + by rewrite lookup_insert_eq.
    + by rewrite lookup_insert_ne.
  - intros Hnone.
    apply (update_invariant (λ m, m !! k = Some v)); [|done].
    intros text line self' Hpost Hin Hkeep.
    destruct (update_line_cases line self') as [-> | [-> | (oid & value & const & Hsp & Hget & ->)]];
      [done..|].
    simpl. rewrite lookup_insert_ne; [done|].
    intros ->. by apply (Hnone text line oid value).
Qed.

Lemma update_keeps_cached_fields_witness :
  let post : transport := λ _, Ok "OID4.1.13=712&junk" in
  let self := setitem "DevName" (VStr "Kitchen") (__init__ "nt10e" "admin" "pw") in
  (update post self).2 = Raise ValueError
  ∧ _data (update post self).1 !! "AverageTemp" = Some (VStr "712")
  ∧ _data (update post self).1 !! "DevName" = Some (VStr "Kitchen").
Proof.
  intros post self. split_and!; [reflexivity..|].
  apply (update_keeps_cached_fields post self "DevName" (VStr "Kitchen")); [reflexivity|].
  intros text line oid value [= <-] Hin Hsplit.
  change (line ∈ ["OID4.1.13=712"; "junk"]) in Hin.
  apply elem_of_cons in Hin as [->|Hin].
  - injection Hsplit as <- _. discriminate.
  - apply list_elem_of_singleton in Hin as ->. discriminate Hsplit.
Defined.

(** ** Refresh: well-formed pairs *)

Lemma update_line_pair (key value : string) (self : PDP) :
  contains "=" key = false → contains "=" value = false →
  update_line (key +:+ "=" +:+ value) self = (store_pair (key, value) self, Ok ()).
Proof.
  intros Hk Hv. unfold update_line, store_pair.
  rewrite truthy_append by done. rewrite split_pair by done. simpl.
  destruct (dict_get OIDS (slice_from 3 key)) as [const|] eqn:Hget; [|done].
  by rewrite (OIDS_names_truthy _ _ Hget).
Qed.

Lemma update_lines_pairs (pairs : list (string * string)) (self : PDP) :
  Forall (λ kv, contains "=" kv.1 = false ∧ contains "=" kv.2 = false) pairs →
  update_lines ((λ kv, kv.1 +:+ "=" +:+ kv.2) <$> pairs) self
  = (foldl (λ s kv, store_pair kv s) self pairs, Ok ()).
Proof.
  revert self. induction pairs as [|[key value] pairs IH]; intros self Hall; [done|].
  apply Forall_cons in Hall as [[Hk Hv] Hall]. simpl in *.
  rewrite update_line_pair by done. by apply IH.
Qed.

Lemma contains_append (c : ascii) (a b : string) :
  contains c (a +:+ b) = contains c a || contains c b.
Proof. induction a as [|d a IH]; simpl; [done|]. by rewrite IH, orb_assoc. Qed.



(** ** The types of cached values *)

(** C2, as amended: [update] stores only strings: an entry of the cache
    after it is either the entry that was there or a string; the setter of
    [setback_heat] stores an integer, the truncated [val * 10], and touches
    no other key. *)
Theorem cache_holds_strings_and_setter_integer (post : transport) (self : PDP) :
  (∀ k v, _data (update post self).1 !! k = Some v →
          _data self !! k = Some v ∨ is_str v = true)
  ∧ (∀ val n, int_of_number (times10 val) = Ok n →
       _data (setback_heat_setter post val self).1 !! "SetbackHeat" = Some (VInt n)
       ∧ is_str (VInt n) = false)
  ∧ (∀ val k, k ≠ "SetbackHeat" →
       _data (setback_heat_setter post val self).1 !! k = _data self !! k).
Proof.
  split_and!.
  - apply (update_invariant
             (λ m, ∀ k v, m !! k = Some v → _data self !! k = Some v ∨ is_str v = true));
      [|by left].
    intros text line self' _ _ IH k v.
    destruct (update_line_cases line self')
      as [-> | [-> | (oid & value & const & _ & _ & ->)]]; [by apply IH..|].
    simpl. destruct (decide (const = k)) as [->|Hne].
    + rewrite lookup_insert_eq. intros [= <-]. by right.
    + rewrite lookup_insert_ne by done. apply IH.
  - intros val n Hint. unfold setback_heat_setter. rewrite Hint. simpl.
    by rewrite lookup_insert_eq.
  - intros val k Hk. unfold setback_heat_setter.
    destruct (int_of_number (times10 val)); [|done].
    simpl. by rewrite lookup_insert_ne.
Qed.

Lemma cache_holds_strings_and_setter_integer_witness :
  let post : transport := λ _, Ok "OID1.2=Kitchen" in
  let self := __init__ "nt10e" "admin" "pw" in
  is_str (VStr "Kitchen") = true
  ∧ _data (setback_heat_setter post (Float 68.3) self).1 !! "SetbackHeat" = Some (VInt 683)
  ∧ _data (setback_heat_setter post (Float 68.3) self).1 !! "DevName" = None.
Proof.
  intros post self.
  destruct (cache_holds_strings_and_setter_integer post self) as (Hupd & Hset & Hframe).
  split_and!.
  - destruct (Hupd "DevName" (VStr "Kitchen") eq_refl) as [Hold|Hstr];
      [discriminate Hold|exact Hstr].
  - apply (Hset (Float 68.3) 683). reflexivity.
  - rewrite (Hframe (Float 68.3) "DevName"); [reflexivity|discriminate].
Defined.

(** C2, as stated, fails: after the setter is given 68.3 the cache holds
    the integer 683 under [SetbackHeat], not a string. *)
Lemma setter_caches_an_integer :
  let self := __init__ "nt10e" "admin" "pw" in
  let self' := (setback_heat_setter (λ _, Ok "") (Float 68.3) self).1 in
  _data self' !! "SetbackHeat" = Some (VInt 683)
  ∧ is_str (VInt 683) = false
  ∧ ∀ s, _data self' !! "SetbackHeat" ≠ Some (VStr s).
Proof. split_and!; [by vm_compute..|]. intros s. by vm_compute. Qed.

(** ** Accessors *)

(** C5: an accessor whose field is not in the cache raises [KeyError] for
    that field, so it returns nothing, neither a default nor a null; that
    is the case of every accessor on a proxy just built. *)
Theorem accessors_raise_when_not_cached (self : PDP) :
  (_data self !! "AverageTemp" = None → cur_temp self = Raise (KeyError "AverageTemp"))
  ∧ (_data self !! "SetbackHeat" = None → setback_heat self = Raise (KeyError "SetbackHeat"))
  ∧ (_data self !! "HvacState" = None → hvac_state self = Raise (KeyError "HvacState"))
  ∧ (_data self !! "DevName" = None → name self = Raise (KeyError "DevName"))
  ∧ (_data self !! "FanState" = None → fan_state self = Raise (KeyError "FanState"))
  ∧ (∀ host user passwd, self = __init__ host user passwd →
       cur_temp self = Raise (KeyError "AverageTemp")
       ∧ setback_heat self = Raise (KeyError "SetbackHeat")
       ∧ hvac_state self = Raise (KeyError "HvacState")
       ∧ name self = Raise (KeyError "DevName")
       ∧ fan_state self = Raise (KeyError "FanState")).
Proof.
  unfold cur_temp, setback_heat, hvac_state, name, fan_state, getitem.
  split_and!; try (by intros ->).
  intros host user passwd ->. done.
Qed.

Lemma accessors_raise_when_not_cached_witness :
  let self := setitem "DevName" (VStr "Kitchen") (__init__ "nt10e" "admin" "pw") in
  cur_temp self = Raise (KeyError "AverageTemp")
  ∧ fan_state self = Raise (KeyError "FanState")
  ∧ hvac_state (__init__ "nt10e" "admin" "pw") = Raise (KeyError "HvacState").
Proof.
  intros self.
  destruct (accessors_raise_when_not_cached self) as (Htemp & _ & _ & _ & Hfan & _).
  destruct (accessors_raise_when_not_cached (__init__ "nt10e" "admin" "pw"))
    as (_ & _ & _ & _ & _ & Hnew).
  split_and!.
  - apply Htemp. reflexivity.
  - apply Hfan. reflexivity.
  - apply (Hnew "nt10e" "admin" "pw" eq_refl).
Defined.

(** C9: with a fan state in the cache, [fan_state] is [On] when the cached
    object is the string [2] and [Off] for any other object; it is one of
    the two in every case. *)
Theorem fan_state_on_iff_two (self : PDP) (v : value) :
  _data self !! "FanState" = Some v →
  (v = VStr "2" → fan_state self = Ok "On")
  ∧ (v ≠ VStr "2" → fan_state self = Ok "Off")
  ∧ (fan_state self = Ok "On" ∨ fan_state self = Ok "Off").
Proof.
  intros Hv. unfold fan_state, getitem. rewrite Hv. simpl.
  destruct v as [s|n]; simpl.
  - case_bool_decide as Hs.
    + subst s. split_and!; [done|done|by left].
    + split_and!; [by intros [= ->]|done|by right].
  - split_and!; [done|done|by right].
Qed.

Lemma fan_state_on_iff_two_witness :
  fan_state (setitem "FanState" (VStr "2") (__init__ "nt10e" "admin" "pw")) = Ok "On"
  ∧ fan_state (setitem "FanState" (VStr "1") (__init__ "nt10e" "admin" "pw")) = Ok "Off"
  ∧ fan_state (setitem "FanState" (VInt 2) (__init__ "nt10e" "admin" "pw")) = Ok "Off".
Proof.
  split_and!.
  - apply (fan_state_on_iff_two _ (VStr "2")); reflexivity.
  - apply (fan_state_on_iff_two _ (VStr "1")); [reflexivity|discriminate].
  - apply (fan_state_on_iff_two _ (VInt 2)); [reflexivity|discriminate].
Defined.

(** ** Facts about form encoding *)






Lemma quote_plus_oid (const oid : string) :
  _get_oid const = Some oid → quote_plus ("OID" +:+ oid) = "OID" +:+ oid.
Proof.
  unfold _get_oid, OIDS; simpl.
  repeat (case_bool_decide; [by intros [= <-]|]). done.
Qed.

(** ** Facts about truncation *)


(** ** The setter of the heating setback *)



(** ** The bulk query *)

(** C8: the query of [_all_oids] splits at [&] into one token per entry of
    the table, in the order of the table, each token being [OID], the
    identifier and [=] with nothing after it. *)
Theorem all_oids_one_token_per_entry :
  split "&" _all_oids = (λ entry, "OID" +:+ entry.1 +:+ "=") <$> OIDS
  ∧ length (split "&" _all_oids) = length OIDS
  ∧ NoDup (split "&" _all_oids)
  ∧ _all_oids
    = "OID1.2=&OID4.1.13=&OID4.1.4=&OID4.1.5=&OID4.1.6=&OID4.1.2=&OID4.1.11=&OID4.5.1=&OID4.5.3=&OID4.5.5=&OID4.5.6=".
Proof.
  assert (Htokens : split "&" _all_oids = (λ entry, "OID" +:+ entry.1 +:+ "=") <$> OIDS).
  { unfold _all_oids. rewrite <- list_fmap_compose.
    apply (split_join "&"); [done|].
    by apply (bool_decide_unpack _). }
  split_and!; [exact Htokens| | |done].
  - by rewrite Htokens, length_fmap.
  - rewrite Htokens. by apply (bool_decide_unpack _).
Qed.

(** ** Field write *)

Lemma dict_set_fresh {V : Type} (k : string) (v : V) (d : list (string * V)) :
  k ∉ d.*1 → dict_set k v d = d ++ [(k, v)].
Proof.
  induction d as [|[k' v'] d IH]; simpl; [done|].
  intros [Hne Hd]%not_elem_of_cons.
  rewrite bool_decide_eq_false_2 by done. by rewrite IH.
Qed.

(** Two names with the same identifier are the same name. *)
Lemma _get_oid_inj (k1 k2 oid : string) :
  _get_oid k1 = Some oid → _get_oid k2 = Some oid → k1 = k2.
Proof.
  intros H1%get_oid_in_entry H2%get_oid_in_entry.
  apply (dict_get_of_entry _ _ _ OIDS_oids_unique) in H1, H2. congruence.
Qed.

Lemma resolved_cons (kv : string * value) (kwargs : list (string * value)) :
  resolved (kv :: kwargs)
  = match _get_oid kv.1 with
    | Some oid => (oid, kv.2) :: resolved kwargs
    | None => resolved kwargs
    end.
Proof. unfold resolved; simpl. by destruct (_get_oid kv.1). Qed.

Lemma resolved_oid_origin (oid : string) (kwargs : list (string * value)) :
  oid ∈ (resolved kwargs).*1 → ∃ k, k ∈ kwargs.*1 ∧ _get_oid k = Some oid.
Proof.
  induction kwargs as [|[k v] kwargs IH]; [by intros ?%elem_of_nil|].
  rewrite resolved_cons; simpl.
  destruct (_get_oid k) as [o|] eqn:Hk.
  - intros [->|Hin]%elem_of_cons.
    + exists k. split; [by left|done].
    + destruct (IH Hin) as (k' & Hk' & Hget). exists k'. split; [by right|done].
  - intros Hin. destruct (IH Hin) as (k' & Hk' & Hget). exists k'. split; [by right|done].
Qed.

(** Distinct names resolve to distinct identifiers. *)
Lemma resolved_NoDup (kwargs : list (string * value)) :
  NoDup kwargs.*1 → NoDup (resolved kwargs).*1.
Proof.
  induction kwargs as [|[k v] kwargs IH]; [by intros _; apply NoDup_nil|].
  intros [Hfresh Hrest]%NoDup_cons. rewrite resolved_cons; simpl.
  destruct (_get_oid k) as [oid|] eqn:Hk; [|by apply IH].
  apply NoDup_cons. split; [|by apply IH].
  intros (k' & Hk' & Hget)%resolved_oid_origin.
  by rewrite (_get_oid_inj _ _ _ Hk Hget) in Hfresh.
Qed.

(** The loop of [_set] appends, in order, one entry per resolved pair. *)
Lemma _set_data_loop (kwargs acc : list (string * value)) :
  NoDup (acc.*1 ++ (String.append "OID" <$> (resolved kwargs).*1)) →
  foldl
    (λ data kv,
       match _get_oid kv.1 with
       | Some oid => if truthy oid then dict_set ("OID" +:+ oid) kv.2 data else data
       | None => data
       end)
    acc kwargs
  = acc ++ ((λ ov, ("OID" +:+ ov.1, ov.2)) <$> resolved kwargs).
Proof.
  revert acc. induction kwargs as [|[k v] kwargs IH]; intros acc.
  - intros _. simpl. by rewrite app_nil_r.
  - rewrite resolved_cons. cbn [foldl fst snd].
    destruct (_get_oid k) as [oid|] eqn:Hk; [|by apply IH].
    rewrite (OIDS_oids_truthy _ _ Hk). cbn [fmap list_fmap fst snd].
    intros Hnodup.
    assert (Hfresh : "OID" +:+ oid ∉ acc.*1).
    { apply NoDup_app in Hnodup as (_ & Hdisj & _).
      intros Hin. apply (Hdisj _ Hin). by left. }
    rewrite dict_set_fresh by done.
    rewrite IH.
    + by rewrite <- app_assoc.
    + rewrite fmap_app; simpl. by rewrite <- app_assoc.
Qed.

Lemma _set_data_resolved (kwargs : list (string * value)) :
  NoDup kwargs.*1 →
  _set_data kwargs = (λ ov, ("OID" +:+ ov.1, ov.2)) <$> resolved kwargs.
Proof.
  intros Hnodup. unfold _set_data. rewrite _set_data_loop; [done|].
  simpl. apply (NoDup_fmap_2 _). by apply resolved_NoDup.
Qed.

Lemma urlencode_resolved (kwargs : list (string * value)) :
  urlencode ((λ ov, ("OID" +:+ ov.1, ov.2)) <$> resolved kwargs)
  = join "&" (token <$> resolved kwargs).
Proof.
  unfold urlencode. f_equal. rewrite <- list_fmap_compose.
  induction kwargs as [|[k v] kwargs IH]; [done|].
  rewrite resolved_cons; simpl.
  destruct (_get_oid k) as [oid|] eqn:Hk; [|done].
  cbn [fmap list_fmap]. rewrite <- IH. f_equal.
  unfold token, compose; simpl. by rewrite (quote_plus_oid _ _ Hk).
Qed.



(** ** Refresh: when it raises *)







(** ** Refresh: empty segments *)





(** ** Refresh: the same reply twice *)

(** What a line does to the proxy does not depend on the proxy. *)
Lemma update_line_shape (line : string) :
  (∀ self, update_line line self = (self, Ok ()))
  ∨ (∀ self, update_line line self = (self, Raise ValueError))
  ∨ ∃ const value, ∀ self, update_line line self = (setitem const (VStr value) self, Ok ()).
Proof.
  unfold update_line.
  destruct (truthy line); [|by left].
  destruct (split "=" line) as [|oid [|value [|? ?]]]; [by right; left..| |by right; left].
  destruct (dict_get OIDS (slice_from 3 oid)) as [const|] eqn:Hget; [|by left].
  rewrite (OIDS_names_truthy _ _ Hget).
  right; right. by exists const, value.
Qed.

(** The loop is a run of stores followed by its outcome, both decided by
    the lines alone. *)
Lemma update_lines_shape (lines : list string) :
  ∃ (stores : list (string * string)) (r : result ()),
    ∀ self, update_lines lines self
            = (foldl (λ s kv, setitem kv.1 (VStr kv.2) s) self stores, r).
Proof.
  induction lines as [|line lines (stores & r & IH)].
  - by exists [], (Ok ()).
  - destruct (update_line_shape line) as [Hl | [Hl | (const & value & Hl)]].
    + exists stores, r. intros self. simpl. by rewrite Hl, IH.
    + exists [], (Raise ValueError). intros self. simpl. by rewrite Hl.
    + exists ((const, value) :: stores), r. intros self. simpl. by rewrite Hl, IH.
Qed.

Lemma stores_data (stores : list (string * string)) (self : PDP) :
  _data (foldl (λ s kv, setitem kv.1 (VStr kv.2) s) self stores)
  = foldl (λ m kv, <[kv.1 := VStr kv.2]> m) (_data self) stores.
Proof. revert self. induction stores as [|kv stores IH]; intros self; [done|]. apply IH. Qed.

Lemma stores_connection (stores : list (string * string)) (self : PDP) :
  let self' := foldl (λ s kv, setitem kv.1 (VStr kv.2) s) self stores in
  _host self' = _host self ∧ _user self' = _user self ∧ _passwd self' = _passwd self.
Proof.
  revert self. induction stores as [|kv stores IH]; intros self; [done|].
  apply (IH (setitem kv.1 (VStr kv.2) self)).
Qed.

Lemma stores_union (stores : list (string * string)) (m : gmap string value) :
  foldl (λ m kv, <[kv.1 := VStr kv.2]> m) m stores
  = foldl (λ m kv, <[kv.1 := VStr kv.2]> m) ∅ stores ∪ m.
Proof.
  revert m. induction stores as [|[k v] stores IH]; intros m; simpl.
  - by rewrite (left_id_L ∅ (∪)).
  - rewrite (IH (<[k:=VStr v]> m)), (IH (<[k:=VStr v]> ∅)).
    rewrite <- (assoc_L (∪)). f_equal.
    by rewrite <- insert_union_l, (left_id_L ∅ (∪)).
Qed.

Lemma stores_twice (stores : list (string * string)) (m : gmap string value) :
  foldl (λ m kv, <[kv.1 := VStr kv.2]> m)
        (foldl (λ m kv, <[kv.1 := VStr kv.2]> m) m stores) stores
  = foldl (λ m kv, <[kv.1 := VStr kv.2]> m) m stores.
Proof.
  rewrite (stores_union stores (foldl _ m stores)), (stores_union stores m).
  by rewrite (assoc_L (∪)), (idemp_L (∪)).
Qed.

Lemma PDP_eq (a b : PDP) :
  _host a = _host b → _user a = _user b → _passwd a = _passwd b → _data a = _data b →
  a = b.
Proof. destruct a, b; simpl. by intros -> -> -> ->. Qed.

(** The connection parameters are never assigned after [__init__]. *)
Lemma update_connection (post : transport) (self : PDP) :
  _host (update post self).1 = _host self
  ∧ _user (update post self).1 = _user self
  ∧ _passwd (update post self).1 = _passwd self.
Proof.
  unfold update. destruct (post (update_request self)) as [text|e]; [|done].
  destruct (update_lines_shape (split "&" text)) as (stores & r & ->).
  apply stores_connection.
Qed.

(** X3: refreshing twice with the same reply is refreshing once: the second
    [update] leaves the proxy as the first made it and ends as the first
    did, also when the reply makes both raise. *)
Theorem update_idempotent (post : transport) (self : PDP) :
  update post (update post self).1 = update post self.
Proof.
  destruct (update_connection post self) as (Hh & Hu & Hp).
  assert (Hreq : update_request (update post self).1 = update_request self).
  { unfold update_request. by rewrite Hh, Hu, Hp. }
  unfold update at 1. rewrite Hreq. unfold update.
  destruct (post (update_request self)) as [text|e]; [|done].
  destruct (update_lines_shape (split "&" text)) as (stores & r & Hshape).
  rewrite !Hshape. cbn [fst]. f_equal.
  apply PDP_eq.
  - destruct (stores_connection stores
               (foldl (λ s kv, setitem kv.1 (VStr kv.2) s) self stores)) as (H & _ & _).
    exact H.
  - destruct (stores_connection stores
               (foldl (λ s kv, setitem kv.1 (VStr kv.2) s) self stores)) as (_ & H & _).
    exact H.
  - destruct (stores_connection stores
               (foldl (λ s kv, setitem kv.1 (VStr kv.2) s) self stores)) as (_ & _ & H).
    exact H.
  - rewrite !stores_data. apply stores_twice.
Qed.

(** ** Refresh: a field named more than once *)

Lemma update_lines_keep (lines : list string) (self : PDP) (const : string) (v : value) :
  (∀ line oid value, line ∈ lines → split "=" line = [oid; value] →
     dict_get OIDS (slice_from 3 oid) ≠ Some const) →
  _data self !! const = Some v →
  _data (update_lines lines self).1 !! const = Some v.
Proof.
  intros Hnone.
  apply (update_lines_invariant (λ m, m !! const = Some v)).
  intros line self' Hin Hkeep.
  destruct (update_line_cases line self')
    as [-> | [-> | (oid & value & c & Hsp & Hget & ->)]]; [done..|].
  simpl. rewrite lookup_insert_ne; [done|].
  intros ->. by apply (Hnone line oid value).
Qed.

(** X4: when a reply names a field more than once, the last pair decides:
    a pair [key=value] for a known identifier, reached without an
    exception, leaves [value] in the cache under the name of the
    identifier if no later pair is for the same identifier, whatever the
    lines before it stored and whether a later line raises or not. *)
Theorem update_last_pair_wins
    (post : transport) (self : PDP) (text : string)
    (before after : list string) (key value const : string) :
  post (update_request self) = Ok text →
  split "&" text = before ++ (key +:+ "=" +:+ value) :: after →
  (update_lines before self).2 = Ok () →
  contains "=" key = false → contains "=" value = false →
  dict_get OIDS (slice_from 3 key) = Some const →
  (∀ line oid v, line ∈ after → split "=" line = [oid; v] →
     dict_get OIDS (slice_from 3 oid) ≠ Some const) →
  _data (update post self).1 !! const = Some (VStr value).
Proof.
  intros Hpost Hsplit Hbefore Hk Hv Hget Hafter.
  unfold update. rewrite Hpost, Hsplit, update_lines_app.
  destruct (update_lines before self) as [self' [[]|e]]; [|done].
  cbn [update_lines]. rewrite update_line_pair by done.
  apply update_lines_keep; [done|].
  unfold store_pair; cbn [fst snd]. rewrite Hget. apply lookup_insert_eq.
Qed.

Lemma update_last_pair_wins_witness :
  _data (update (λ _, Ok "OID1.2=Hall&OID1.2=Kitchen&OID4.1.4=2&junk")
           (__init__ "nt10e" "admin" "pw")).1 !! "DevName"
  = Some (VStr "Kitchen").
Proof.
  apply (update_last_pair_wins _ _ "OID1.2=Hall&OID1.2=Kitchen&OID4.1.4=2&junk"
           ["OID1.2=Hall"] ["OID4.1.4=2"; "junk"] "OID1.2" "Kitchen" "DevName");
    try reflexivity.
  intros line oid v Hin Hsplit.
  apply elem_of_cons in Hin as [->|Hin].
  - injection Hsplit as <- _. discriminate.
  - apply list_elem_of_singleton in Hin as ->. discriminate Hsplit.
Defined.

(** ** Refresh: a reply for every field *)

(** X5: a reply that answers every token of the query, in the order of
    the query, with values free of [&] and [=], is accepted, and leaves
    each field of the table cached with the value answered for its
    identifier, whatever the cache held; keys that are not names of the
    table are untouched. *)
Theorem update_full_reply (post : transport) (self : PDP) (answer : string → string) :
  (∀ oid, contains "&" (answer oid) = false ∧ contains "=" (answer oid) = false) →
  post (update_request self)
  = Ok (join "&" ((λ oid, "OID" +:+ oid +:+ "=" +:+ answer oid) <$> OIDS.*1)) →
  (update post self).2 = Ok ()
  ∧ (∀ oid const, (oid, const) ∈ OIDS →
       _data (update post self).1 !! const = Some (VStr (answer oid)))
  ∧ (∀ k, k ∉ OIDS.*2 → _data (update post self).1 !! k = _data self !! k).
Proof.
  intros Hanswer Hpost.
  assert (Hrun : update post self
    = (foldl (λ s kv, store_pair kv s) self
         ((λ oid, ("OID" +:+ oid, answer oid)) <$> OIDS.*1), Ok ())).
  { unfold update. rewrite Hpost, split_join.
    - rewrite <- update_lines_pairs; [by rewrite <- list_fmap_compose|].
      apply Forall_fmap, Forall_forall. intros oid Hoid. cbn [fst snd compose].
      split; [|apply Hanswer].
      revert oid Hoid. apply Forall_forall. by apply (bool_decide_unpack _).
    - done.
    - apply Forall_fmap, Forall_forall. intros oid Hoid. cbn [compose].
      rewrite !contains_append. destruct (Hanswer oid) as [-> _].
      rewrite !orb_false_r.
      revert oid Hoid. apply Forall_forall. by apply (bool_decide_unpack _). }
  rewrite Hrun. clear Hrun Hpost.
  change (foldl (λ s kv, store_pair kv s) self
            ((λ oid, ("OID" +:+ oid, answer oid)) <$> OIDS.*1))
    with (setitem "LastUsageReset" (VStr (answer "4.5.6"))
         (setitem "FanUsage" (VStr (answer "4.5.5"))
         (setitem "Cool1Usage" (VStr (answer "4.5.3"))
         (setitem "Heat1Usage" (VStr (answer "4.5.1"))
         (setitem "CurrentClass" (VStr (answer "4.1.11"))
         (setitem "HvacState" (VStr (answer "4.1.2"))
         (setitem "SetbackCool" (VStr (answer "4.1.6"))
         (setitem "SetbackHeat" (VStr (answer "4.1.5"))
         (setitem "FanState" (VStr (answer "4.1.4"))
         (setitem "AverageTemp" (VStr (answer "4.1.13"))
         (setitem "DevName" (VStr (answer "1.2")) self))))))))))).
  split_and!; [done| |].
  - intros oid const Hin. apply list_elem_of_In in Hin. cbn [fst _data setitem].
    unfold OIDS in Hin. simpl in Hin.
    repeat (destruct Hin as [[= <- <-]|Hin];
            [repeat (rewrite lookup_insert_ne by done); by rewrite lookup_insert_eq|]).
    done.
  - intros k Hk. cbn [fst _data setitem].
    repeat (rewrite lookup_insert_ne;
            [|intros <-; apply Hk; by apply (bool_decide_unpack _)]).
    done.
Qed.

Lemma update_full_reply_witness :
  let self := setitem "DevName" (VStr "Hall") (__init__ "nt10e" "admin" "pw") in
  let post : transport :=
    λ _, Ok (join "&" ((λ oid, "OID" +:+ oid +:+ "=" +:+ "7") <$> OIDS.*1)) in
  _data (update post self).1 !! "DevName" = Some (VStr "7")
  ∧ _data (update post self).1 !! "LastUsageReset" = Some (VStr "7").
Proof.
  intros self post.
  destruct (update_full_reply post self (λ _, "7")) as (_ & Hall & _);
    [by intros oid|reflexivity|].
  split.
  - apply (Hall "1.2" "DevName"). by apply (bool_decide_unpack _).
  - apply (Hall "4.5.6" "LastUsageReset"). by apply (bool_decide_unpack _).
Defined.

(** ** What every proxy of a program satisfies *)

(** X6: in every proxy reached from [__init__] by refreshes and uses of
    the setter, the connection parameters are those given to [__init__],
    every key of the cache is a name of the table, and every cached object
    is a string, but for [SetbackHeat], which may be an integer; so [name],
    when it returns, returns a string. *)
Theorem reachable_invariant (host user passwd : string) (self : PDP) :
  reachable host user passwd self →
  (_host self = host ∧ _user self = user ∧ _passwd self = passwd)
  ∧ (∀ k v, _data self !! k = Some v →
       k ∈ OIDS.*2 ∧ (is_str v = true ∨ k = "SetbackHeat"))
  ∧ (∀ v, name self = Ok v → is_str v = true).
Proof.
  intros Hreach.
  assert (Hinv : (_host self = host ∧ _user self = user ∧ _passwd self = passwd)
    ∧ (∀ k v, _data self !! k = Some v →
         k ∈ OIDS.*2 ∧ (is_str v = true ∨ k = "SetbackHeat"))).
  { induction Hreach as [|post self Hreach [Hconn Hdata]|post val self Hreach [Hconn Hdata]].
    - split; [done|]. intros k v. simpl. by rewrite lookup_empty.
    - split.
      + destruct (update_connection post self) as (-> & -> & ->). exact Hconn.
      + apply (update_invariant
                 (λ m, ∀ k v, m !! k = Some v →
                    k ∈ OIDS.*2 ∧ (is_str v = true ∨ k = "SetbackHeat"))); [|done].
        intros text line self' _ _ IH k v.
        destruct (update_line_cases line self')
          as [-> | [-> | (oid & value & const & _ & Hget & ->)]]; [by apply IH..|].
        cbn [fst _data setitem]. destruct (decide (const = k)) as [->|Hne].
        * rewrite lookup_insert_eq. intros [= <-]. split; [|by left].
          apply list_elem_of_fmap. exists (slice_from 3 oid, k).
          split; [done|]. by apply dict_get_entry.
        * rewrite lookup_insert_ne by done. apply IH.
    - unfold setback_heat_setter.
      destruct (int_of_number (times10 val)) as [n|e]; [|done].
      split; [done|]. intros k v. cbn [fst _data setitem].
      destruct (decide ("SetbackHeat" = k)) as [<-|Hne].
      + rewrite lookup_insert_eq. intros [= <-].
        split; [by apply (bool_decide_unpack _)|by right].
      + rewrite lookup_insert_ne by done. apply Hdata. }
  destruct Hinv as [Hconn Hdata]. split; [exact Hconn|]. split; [exact Hdata|].
  intros v. unfold name, getitem.
  destruct (_data self !! "DevName") as [w|] eqn:Hw; [|done].
  intros [= <-]. by destruct (Hdata _ _ Hw) as [_ [?|?]].
Qed.

Lemma reachable_invariant_witness :
  let self :=
    (update (λ _, Ok "OID1.2=Kitchen")
       (setback_heat_setter (λ _, Raise RequestException) (Float 68.3)
          (__init__ "nt10e" "admin" "pw")).1).1 in
  _host self = "nt10e"
  ∧ _data self !! "SetbackHeat" = Some (VInt 683)
  ∧ (∀ v, name self = Ok v → is_str v = true).
Proof.
  intros self.
  destruct (reachable_invariant "nt10e" "admin" "pw" self) as ((Hhost & _) & _ & Hname).
  { apply reachable_update, reachable_setter, reachable_init. }
  split_and!; [exact Hhost|reflexivity|exact Hname].
Defined.

(** ** The setter: reading back and failing *)

(** X7: once the setter has stored [n], the getter of [setback_heat] reads
    [float(n) / 10] with no refresh in between, whatever became of the
    write, and the other accessors read what they read before. *)
Theorem setter_then_getter (post : transport) (val : number) (self : PDP) (n : Z) :
  int_of_number (times10 val) = Ok n →
  let after := (setback_heat_setter post val self).1 in
  setback_heat after = (f ← float_of_int n; Ok (f / 10)%float)
  ∧ cur_temp after = cur_temp self
  ∧ hvac_state after = hvac_state self
  ∧ name after = name self
  ∧ fan_state after = fan_state self.
Proof.
  intros Hint. unfold setback_heat_setter. rewrite Hint. cbn [fst].
  unfold setback_heat, cur_temp, hvac_state, name, fan_state, getitem. simpl.
  rewrite lookup_insert_eq.
  by rewrite !lookup_insert_ne by done.
Qed.

Lemma setter_then_getter_witness :
  let after :=
    (setback_heat_setter (λ _, Raise RequestException) (Float 68.3)
       (__init__ "nt10e" "admin" "pw")).1 in
  setback_heat after = Ok 68.3%float
  ∧ cur_temp after = Raise (KeyError "AverageTemp").
Proof.
  intros after. subst after.
  destruct (setter_then_getter (λ _, Raise RequestException) (Float 68.3)
              (__init__ "nt10e" "admin" "pw") 683 eq_refl) as (Hget & Htemp & _).
  split; [rewrite Hget; reflexivity|rewrite Htemp; reflexivity].
Defined.



(** ** Field write: the body can be taken apart again *)

Lemma append_assoc (a b c : string) : (a +:+ b) +:+ c = a +:+ (b +:+ c).
Proof.
  induction a as [|x a IH]; [done|].
  change (String x ((a +:+ b) +:+ c) = String x (a +:+ b +:+ c)).
  by rewrite IH.
Qed.

Lemma all_chars_append (P : ascii → bool) (a b : string) :
  all_chars P (a +:+ b) = all_chars P a && all_chars P b.
Proof. induction a as [|x a IH]; simpl; [done|]. by rewrite IH, andb_assoc. Qed.

Lemma all_chars_impl (P Q : ascii → bool) (s : string) :
  (∀ c, P c = true → Q c = true) → all_chars P s = true → all_chars Q s = true.
Proof.
  intros HPQ. induction s as [|x s IH]; simpl; [done|].
  intros [Hx Hs]%andb_true_iff. by rewrite (HPQ _ Hx), IH.
Qed.

Lemma all_chars_excludes (P : ascii → bool) (c : ascii) (s : string) :
  P c = false → all_chars P s = true → contains c s = false.
Proof.
  intros Hc. induction s as [|x s IH]; simpl; [done|].
  intros [Hx Hs]%andb_true_iff. rewrite (IH Hs), orb_false_r.
  destruct (Ascii.eqb_spec x c) as [->|]; [congruence|done].
Qed.

Lemma hex_digit_safe (n : N) : always_safe (hex_digit n) = true.
Proof.
  unfold hex_digit. generalize (N.to_nat n). intros k.
  do 16 (destruct k as [|k]; [done|]). done.
Qed.

Lemma percent_form (b : N) : all_chars form_char (percent b) = true.
Proof.
  unfold percent, form_char. cbn [all_chars].
  by rewrite !hex_digit_safe.
Qed.

Lemma escape_form (c : ascii) :
  all_chars form_char (String.concat "" (percent <$> utf8 c)) = true.
Proof.
  unfold utf8. destruct (N_of_ascii c <? 128)%N; cbn [fmap list_fmap String.concat].
  - apply percent_form.
  - by rewrite !all_chars_append, !percent_form.
Qed.

(** [quote] leaves only safe characters, characters of [safe], and its
    own escapes. *)
Lemma quote_chars (safe s : string) :
  all_chars (λ c, form_char c || contains c safe) (quote safe s) = true.
Proof.
  induction s as [|c s IH]; [done|].
  cbn [quote]. rewrite all_chars_append, IH, andb_true_r.
  destruct (always_safe c || contains c safe) eqn:Hc.
  - cbn [all_chars]. rewrite andb_true_r. unfold form_char.
    apply orb_true_iff in Hc as [->| ->]; [done|by rewrite orb_true_r].
  - eapply all_chars_impl; [|apply escape_form]. by intros x ->.
Qed.

Lemma replace_space_form (s : string) :
  all_chars (λ c, form_char c || contains c " ") s = true →
  all_chars form_char (replace " " "+" s) = true.
Proof.
  induction s as [|c s IH]; [done|].
  cbn [all_chars replace contains].
  intros [Hc Hs]%andb_true_iff. rewrite (IH Hs), andb_true_r.
  destruct (Ascii.eqb_spec c " ") as [->|Hne]; [done|].
  rewrite orb_false_r in Hc.
  apply orb_true_iff in Hc as [Hc|Hc]; [done|].
  apply Ascii.eqb_eq in Hc. congruence.
Qed.

(** Whatever the string, its form encoding has no [&] and no [=] left. *)
Lemma quote_plus_form (s : string) : all_chars form_char (quote_plus s) = true.
Proof.
  unfold quote_plus. destruct (contains " " s).
  - apply replace_space_form, quote_chars.
  - eapply all_chars_impl; [|apply (quote_chars "")].
    intros c. cbn [contains]. by rewrite orb_false_r.
Qed.

Lemma join_snoc (sep : string) (l : list string) (w : string) :
  l ≠ [] → join sep (l ++ [w]) = join sep l +:+ sep +:+ w.
Proof.
  induction l as [|x l IH]; [done|]. intros _.
  destruct l as [|y l]; [done|].
  change (x +:+ sep +:+ join sep ((y :: l) ++ [w])
          = (x +:+ sep +:+ join sep (y :: l)) +:+ sep +:+ w).
  rewrite IH by done. by rewrite !append_assoc.
Qed.

Lemma oid_without_separators (const oid : string) :
  _get_oid const = Some oid →
  contains "&" ("OID" +:+ oid) = false ∧ contains "=" ("OID" +:+ oid) = false.
Proof.
  unfold _get_oid, OIDS; simpl.
  repeat (case_bool_decide; [by intros [= <-]|]). done.
Qed.

Lemma resolved_origin (oid : string) (v : value) (kwargs : list (string * value)) :
  (oid, v) ∈ resolved kwargs → ∃ k, (k, v) ∈ kwargs ∧ _get_oid k = Some oid.
Proof.
  unfold resolved. rewrite list_elem_of_omap. intros ([k' v'] & Hin & Hres).
  simpl in Hres. destruct (_get_oid k') as [o|] eqn:Hk'; [|done].
  simpl in Hres. injection Hres as -> ->. by exists k'.
Qed.

(** X9: the body that [_set] posts can be taken apart without ambiguity,
    whatever characters the values hold: split at [&] it is the tokens of
    the resolved pairs, in order, then [submit=Submit]; and each token
    splits at [=] into [OID<id>] and the encoded value, because the
    encoding leaves no [&] and no [=] in a value. *)
Theorem set_body_splits (self : PDP) (kwargs : list (string * value)) :
  NoDup kwargs.*1 →
  split "&" (data (_set_request self kwargs))
  = (match resolved kwargs with [] => [""] | _ => token <$> resolved kwargs end)
    ++ ["submit=Submit"]
  ∧ Forall (λ ov, split "=" (token ov) = ["OID" +:+ ov.1; quote_plus (str ov.2)]
                  ∧ contains "&" (token ov) = false)
           (resolved kwargs).
Proof.
  intros Hnodup.
  assert (Htokens : Forall (λ ov,
            split "=" (token ov) = ["OID" +:+ ov.1; quote_plus (str ov.2)]
            ∧ contains "&" (token ov) = false) (resolved kwargs)).
  { apply Forall_forall. intros [oid v] (k & _ & Hk)%resolved_origin.
    destruct (oid_without_separators _ _ Hk) as [Hamp Heq].
    pose proof (quote_plus_form (str v)) as Hform.
    unfold token; cbn [fst snd]. split.
    - rewrite <- (append_assoc "OID" oid). apply split_pair; [done|].
      by apply (all_chars_excludes form_char).
    - rewrite <- (append_assoc "OID" oid).
      rewrite (contains_append _ ("OID" +:+ oid)), Hamp.
      rewrite (contains_append _ "=").
      by rewrite (all_chars_excludes form_char "&" _ eq_refl Hform). }
  split; [|exact Htokens].
  unfold _set_request; cbn [data].
  rewrite _set_data_resolved, urlencode_resolved by done.
  destruct (resolved kwargs) as [|ov rest] eqn:Hres; [done|].
  change (join "&" (token <$> ov :: rest) +:+ "&submit=Submit")
    with (join "&" (token <$> ov :: rest) +:+ "&" +:+ "submit=Submit").
  rewrite <- join_snoc by done.
  apply (split_join "&"); [by destruct rest|].
  apply Forall_app. split; [|by repeat constructor].
  apply Forall_fmap. eapply Forall_impl; [exact Htokens|]. by intros ? [_ ?].
Qed.

Lemma set_body_splits_witness :
  split "&" (data (_set_request (__init__ "nt10e" "admin" "pw")
                     [("DevName", VStr "a&b=c d"); ("Humidity", VInt 40)]))
  = ["OID1.2=a%26b%3Dc+d"; "submit=Submit"].
Proof.
  destruct (set_body_splits (__init__ "nt10e" "admin" "pw")
              [("DevName", VStr "a&b=c d"); ("Humidity", VInt 40)]) as [Hsplit _].
  - by apply (bool_decide_unpack _).
  - rewrite Hsplit. reflexivity.
Defined.

(** ** Decimal spellings read back *)

Lemma pretty_N_char_digit (d : N) :
  (d < 10)%N →
  is_digit (pretty_N_char d) = true ∧ digit_value (pretty_N_char d) = Z.of_N d.
Proof.
  intros Hd.
  assert (d = 0 ∨ d = 1 ∨ d = 2 ∨ d = 3 ∨ d = 4 ∨ d = 5 ∨ d = 6 ∨ d = 7
          ∨ d = 8 ∨ d = 9)%N as Hcases by lia.
  repeat (destruct Hcases as [->|Hcases]; [done|]). by subst d.
Qed.

(** Reading the digits that [pretty_N_go] writes gives the number back. *)
Lemma take_digits_pretty_N_go (x : N) (s : string) (acc : Z) (cnt : nat) :
  ∃ k, take_digits acc cnt (pretty_N_go x s)
       = take_digits (acc * 10 ^ Z.of_nat k + Z.of_N x) (cnt + k) s
       ∧ (x ≠ 0%N → k ≠ O).
Proof.
  revert s acc cnt. induction (N.lt_wf_0 x) as [x _ IH]; intros s acc cnt.
  destruct (decide (x = 0%N)) as [->|Hx].
  - exists O. rewrite pretty_N_go_0. split; [|done].
    f_equal; [simpl; lia|lia].
  - rewrite pretty_N_go_step by lia.
    destruct (IH (x `div` 10)%N ltac:(apply N.div_lt; lia)
                (String (pretty_N_char (x `mod` 10)) s) acc cnt) as (k & Hk & _).
    exists (S k). split; [|done]. rewrite Hk. cbn [take_digits].
    destruct (pretty_N_char_digit (x `mod` 10)%N) as [-> ->];
      [apply N.mod_lt; lia|].
    f_equal; [|lia].
    rewrite Nat2Z.inj_succ, Z.pow_succ_r by lia.
    pose proof (N.div_mod x 10 ltac:(lia)) as Hdm. lia.
Qed.

Lemma take_digits_pretty_pos (p : positive) :
  ∃ k, take_digits 0 0 (pretty_N_go (N.pos p) "") = (Z.pos p, S k, "").
Proof.
  destruct (take_digits_pretty_N_go (N.pos p) "" 0 0) as (k & Hk & Hne).
  destruct k as [|k]; [by destruct Hne|].
  exists k. rewrite Hk. cbn [take_digits]. f_equal.
Qed.

Lemma all_digits_pretty_N_go (x : N) (s : string) :
  all_chars is_digit s = true → all_chars is_digit (pretty_N_go x s) = true.
Proof.
  revert s. induction (N.lt_wf_0 x) as [x _ IH]; intros s Hs.
  destruct (decide (x = 0%N)) as [->|Hx]; [by rewrite pretty_N_go_0|].
  rewrite pretty_N_go_step by lia.
  apply IH; [apply N.div_lt; lia|].
  cbn [all_chars]. rewrite Hs, andb_true_r.
  apply pretty_N_char_digit, N.mod_lt. lia.
Qed.

(** The characters of a decimal spelling: digits and the minus sign. *)
Lemma pretty_Z_chars (n : Z) :
  all_chars (λ c, is_digit c || Ascii.eqb c "-") (pretty n) = true.
Proof.
  assert (Hpos : ∀ p, all_chars (λ c, is_digit c || Ascii.eqb c "-")
                        (pretty_N_go (N.pos p) "") = true).
  { intros p. eapply all_chars_impl; [|by apply all_digits_pretty_N_go].
    by intros c ->. }
  destruct n as [|p|p]; [done|apply Hpos|].
  change (all_chars (λ c, is_digit c || Ascii.eqb c "-")
            (String "-" (pretty_N_go (N.pos p) "")) = true).
  cbn [all_chars]. by rewrite Hpos.
Qed.

Lemma rev_app_rev_app (s a b : string) :
  String.rev_app (String.rev_app s a) b = String.rev_app a (s +:+ b).
Proof.
  revert a b. induction s as [|c s IH]; intros a b; [done|].
  cbn [String.rev_app]. by rewrite IH.
Qed.

Lemma all_chars_rev_app (P : ascii → bool) (a b : string) :
  all_chars P (String.rev_app a b) = all_chars P a && all_chars P b.
Proof.
  revert b. induction a as [|c a IH]; intros b; [done|].
  cbn [String.rev_app all_chars]. rewrite IH. cbn [all_chars].
  by destruct (P c), (all_chars P a).
Qed.

Section Plain.
Variable Q : ascii → bool.
Hypothesis Q_not_space : ∀ c, Q c = true → is_space c = false.
Hypothesis Q_not_underscore : ∀ c, Q c = true → Ascii.eqb c "_" = false.

Lemma lstrip_plain (s : string) : all_chars Q s = true → lstrip s = s.
Proof using Q_not_space.
  destruct s as [|c s]; [done|]. cbn [all_chars lstrip].
  intros [Hc _]%andb_true_iff. by rewrite (Q_not_space _ Hc).
Qed.

(** A string with no white space is what [strip] returns for it. *)
Lemma strip_plain (s : string) : all_chars Q s = true → strip s = s.
Proof using Q_not_space.
  intros Hs. unfold strip. rewrite (lstrip_plain s Hs).
  rewrite lstrip_plain.
  - unfold String.rev. rewrite rev_app_rev_app. cbn [String.rev_app].
    clear. induction s as [|c s IH]; [done|].
    change (String c (s +:+ "") = String c s). by rewrite IH.
  - unfold String.rev. by rewrite all_chars_rev_app, Hs.
Qed.

Lemma underscores_ok_plain (prev : ascii) (s : string) :
  Ascii.eqb prev "_" = false → all_chars Q s = true → underscores_ok prev s = true.
Proof using Q_not_underscore.
  revert prev. induction s as [|c s IH]; intros prev Hprev; cbn [underscores_ok all_chars].
  - by rewrite Hprev.
  - intros [Hc Hs]%andb_true_iff.
    rewrite (Q_not_underscore _ Hc), Hprev. cbn [negb orb andb].
    apply IH; [by apply Q_not_underscore|done].
Qed.

Lemma remove_plain (s : string) : all_chars Q s = true → remove "_" s = s.
Proof using Q_not_underscore.
  induction s as [|c s IH]; [done|]. cbn [all_chars remove].
  intros [Hc Hs]%andb_true_iff. by rewrite (Q_not_underscore _ Hc), (IH Hs).
Qed.
End Plain.

Lemma decimal_char_plain (c : ascii) :
  is_digit c || Ascii.eqb c "-" = true →
  is_space c = false ∧ Ascii.eqb c "_" = false.
Proof. destruct c as [[] [] [] [] [] [] [] []]; by vm_compute. Qed.

Lemma take_sign_digit (c : ascii) (s : string) :
  is_digit c = true → take_sign (String c s) = (false, String c s).
Proof. destruct c as [[] [] [] [] [] [] [] []]; by vm_compute. Qed.

Lemma digits_first (s : string) (v : Z) (k : nat) (rest : string) :
  take_digits 0 0 s = (v, S k, rest) →
  ∃ c s', s = String c s' ∧ is_digit c = true.
Proof.
  destruct s as [|c s']; [done|]. cbn [take_digits].
  destruct (is_digit c) eqn:Hc; [|done]. intros _. by exists c, s'.
Qed.




(** ** The write echoed by the device *)

Lemma lower_digit (c : ascii) :
  is_digit c = true →
  (if in_range "A" "Z" c then ascii_of_N (N_of_ascii c + 32) else c) = c
  ∧ c ≠ "i"%char ∧ c ≠ "n"%char.
Proof. destruct c as [[] [] [] [] [] [] [] []]; by vm_compute. Qed.

Lemma parse_decimal_pretty_pos (p : positive) :
  parse_decimal (pretty_N_go (N.pos p) "") = Some (Z.pos p, 0).
Proof.
  unfold parse_decimal. destruct (take_digits_pretty_pos p) as (k & ->). done.
Qed.

Lemma float_of_str_digits (neg : bool) (p : positive) :
  float_of_str (String.append (if neg then "-" else "") (pretty_N_go (N.pos p) ""))
  = Ok (SF2Prim (binary_normalize prec emax (if neg then Z.neg p else Z.pos p) 0 false)).
Proof.
  assert (Hchars : all_chars (λ c, is_digit c || Ascii.eqb c "-")
            (String.append (if neg then "-" else "") (pretty_N_go (N.pos p) "")) = true).
  { destruct neg; [apply (pretty_Z_chars (Z.neg p))|apply (pretty_Z_chars (Z.pos p))]. }
  unfold float_of_str.
  rewrite (strip_plain _ (λ c H, proj1 (decimal_char_plain c H)) _ Hchars).
  rewrite (underscores_ok_plain _ (λ c H, proj2 (decimal_char_plain c H))
             "000" _ eq_refl Hchars).
  rewrite (remove_plain _ (λ c H, proj2 (decimal_char_plain c H)) _ Hchars).
  destruct (take_digits_pretty_pos p) as (k & Hk).
  destruct (digits_first _ _ _ _ Hk) as (c & s' & Hs & Hc).
  assert (Hsign : take_sign (String.append (if neg then "-" else "")
                               (pretty_N_go (N.pos p) ""))
                  = (neg, pretty_N_go (N.pos p) "")).
  { destruct neg; [done|].
    change (take_sign (pretty_N_go (N.pos p) "") = (false, pretty_N_go (N.pos p) "")).
    rewrite Hs. by apply take_sign_digit. }
  rewrite Hsign.
  destruct (lower_digit c Hc) as (Hlow & Hi & Hn).
  assert (Hname : ∀ word, word = "inf" ∨ word = "infinity" ∨ word = "nan" →
            bool_decide (lower (pretty_N_go (N.pos p) "") = word) = false).
  { intros word Hword. apply bool_decide_eq_false_2. rewrite Hs. cbn [lower].
    rewrite Hlow. by destruct Hword as [->|[->| ->]]; intros [= ?]. }
  rewrite !Hname by auto. cbn [orb].
  rewrite parse_decimal_pretty_pos. unfold decimal_to_float.
  cbn [Z.leb Z.compare Z.pow Z.pow_pos]. rewrite Z.mul_1_r.
  by destruct neg.
Qed.

(** [float] reads a decimal spelling as it reads the integer. *)
Lemma float_of_str_pretty (n : Z) (f : float) :
  float_of_int n = Ok f → float_of_str (pretty n) = Ok f.
Proof.
  unfold float_of_int. destruct n as [|p|p].
  - by intros [= <-].
  - change (pretty (Z.pos p)) with (String.append "" (pretty_N_go (N.pos p) "")).
    rewrite (float_of_str_digits false p).
    by destruct (binary_normalize prec emax (Z.pos p) 0 false); intros [= <-].
  - change (pretty (Z.neg p)) with (String.append "-" (pretty_N_go (N.pos p) "")).
    rewrite (float_of_str_digits true p).
    by destruct (binary_normalize prec emax (Z.neg p) 0 false); intros [= <-].
Qed.

(** X11: the value the setter caches reads as the device would have it
    read: if the device echoes the token of the write in its next reply,
    the refresh replaces the cached integer by its decimal spelling, and the
    getter of [setback_heat] returns the same float before and after. *)
Theorem setter_agrees_with_echo
    (post post' : transport) (val : number) (self : PDP) (n : Z) (f : float) :
  int_of_number (times10 val) = Ok n →
  float_of_int n = Ok f →
  post' (update_request self) = Ok ("OID4.1.5=" +:+ pretty n) →
  let set := (setback_heat_setter post val self).1 in
  let refreshed := (update post' set).1 in
  _data set !! "SetbackHeat" = Some (VInt n)
  ∧ _data refreshed !! "SetbackHeat" = Some (VStr (pretty n))
  ∧ setback_heat set = Ok (f / 10)%float
  ∧ setback_heat refreshed = Ok (f / 10)%float.
Proof.
  intros Hint Hf Hpost. unfold setback_heat_setter. rewrite Hint. cbn [fst].
  assert (Hreq : update_request (setitem "SetbackHeat" (VInt n) self) = update_request self)
    by done.
  assert (Hrefreshed : update post' (setitem "SetbackHeat" (VInt n) self)
    = (setitem "SetbackHeat" (VStr (pretty n)) (setitem "SetbackHeat" (VInt n) self),
       Ok ())).
  { unfold update. rewrite Hreq, Hpost.
    assert (Heq : contains "=" (pretty n) = false ∧ contains "&" (pretty n) = false).
    { split; apply (all_chars_excludes (λ c, is_digit c || Ascii.eqb c "-")); try done;
        apply pretty_Z_chars. }
    destruct Heq as [Heq Hamp].
    rewrite split_without_sep
      by (by rewrite (contains_append _ "OID4.1.5="), Hamp).
    cbn [update_lines].
    change ("OID4.1.5=" +:+ pretty n) with ("OID4.1.5" +:+ "=" +:+ pretty n).
    by rewrite (update_line_pair "OID4.1.5" (pretty n)) by done. }
  rewrite Hrefreshed. cbn [fst].
  unfold setback_heat, getitem. cbn [_data setitem].
  rewrite !lookup_insert_eq. cbn [mbind result_bind bind float_].
  by rewrite (float_of_str_pretty _ _ Hf), Hf.
Qed.

Lemma setter_agrees_with_echo_witness :
  let set := (setback_heat_setter (λ _, Ok "") (Float 68.3)
                (__init__ "nt10e" "admin" "pw")).1 in
  let refreshed := (update (λ _, Ok "OID4.1.5=683") set).1 in
  setback_heat set = Ok 68.3%float ∧ setback_heat refreshed = Ok 68.3%float.
Proof.
  intros set refreshed. subst set refreshed.
  destruct (setter_agrees_with_echo (λ _, Ok "") (λ _, Ok "OID4.1.5=683") (Float 68.3)
              (__init__ "nt10e" "admin" "pw") 683 683%float)
    as (_ & _ & Hset & Hrefreshed); [reflexivity..|].
  split; [exact Hset|exact Hrefreshed].
Defined.

(** ** Temperatures read from a reply *)

(** X12: a temperature that the device sends in tenths of a degree, as a
    decimal integer of either sign, is read by [cur_temp] after the
    refresh as the float of that integer divided by ten; the same holds
    for the heating setback. *)
Theorem temperatures_read_decimal
    (post : transport) (self : PDP) (n : Z) (f : float) :
  float_of_int n = Ok f →
  (post (update_request self) = Ok ("OID4.1.13=" +:+ pretty n) →
   cur_temp (update post self).1 = Ok (f / 10)%float)
  ∧ (post (update_request self) = Ok ("OID4.1.5=" +:+ pretty n) →
     setback_heat (update post self).1 = Ok (f / 10)%float).
Proof.
  intros Hf.
  assert (Heq : contains "=" (pretty n) = false ∧ contains "&" (pretty n) = false).
  { split; apply (all_chars_excludes (λ c, is_digit c || Ascii.eqb c "-")); try done;
      apply pretty_Z_chars. }
  destruct Heq as [Heq Hamp].
  split; intros Hpost; unfold update; rewrite Hpost.
  - rewrite split_without_sep
      by (by rewrite (contains_append _ "OID4.1.13="), Hamp).
    cbn [update_lines].
    change ("OID4.1.13=" +:+ pretty n) with ("OID4.1.13" +:+ "=" +:+ pretty n).
    rewrite (update_line_pair "OID4.1.13" (pretty n)) by done.
    unfold cur_temp, getitem, store_pair. cbn [fst snd].
    change (dict_get OIDS (slice_from 3 "OID4.1.13")) with (Some "AverageTemp").
    cbn [fst _data setitem]. rewrite lookup_insert_eq.
    cbn [mbind result_bind bind float_].
    by rewrite (float_of_str_pretty _ _ Hf).
  - rewrite split_without_sep
      by (by rewrite (contains_append _ "OID4.1.5="), Hamp).
    cbn [update_lines].
    change ("OID4.1.5=" +:+ pretty n) with ("OID4.1.5" +:+ "=" +:+ pretty n).
    rewrite (update_line_pair "OID4.1.5" (pretty n)) by done.
    unfold setback_heat, getitem, store_pair. cbn [fst snd].
    change (dict_get OIDS (slice_from 3 "OID4.1.5")) with (Some "SetbackHeat").
    cbn [fst _data setitem]. rewrite lookup_insert_eq.
    cbn [mbind result_bind bind float_].
    by rewrite (float_of_str_pretty _ _ Hf).
Qed.

Lemma temperatures_read_decimal_witness :
  cur_temp (update (λ _, Ok "OID4.1.13=-55") (__init__ "nt10e" "admin" "pw")).1
  = Ok (-5.5)%float.
Proof.
  destruct (temperatures_read_decimal (λ _, Ok "OID4.1.13=-55")
              (__init__ "nt10e" "admin" "pw") (-55) (-55)%float) as (Htemp & _);
    [reflexivity|].
  apply Htemp. reflexivity.
Defined.
